(** * step certificate verify: a shallow embedding of [verifyAction]

    Source: command/certificate/verify.go (package certificate).

    The command acquires a leaf certificate and an intermediate pool
    (from a TLS peer or from a PEM bundle), optionally loads a root pool,
    and then either reports the "verdancy" of the leaf (how much of its
    validity window has elapsed) or runs x509 path validation.

    Go values are modelled as follows.
    - [[]byte] is [list byte], [string] is [string].
    - [time.Time] is the number of nanoseconds since the epoch, in [Z];
      [time.Duration] is an int64 number of nanoseconds, in [Z].
    - [float64] is an IEEE 754 binary64 value, [spec_float] with precision
      53 and maximal exponent 1024; its operations are those of
      [SpecFloat], which round to nearest even as the hardware does.
    - a Go result pair [(v, err)] is a sum [error + V] where the caller
      looks at [v] only when [err == nil], and a pair where it does not.
    - code that lives outside this file of the repository (the Go
      standard library, other packages) is a field of [Lib] when it is a
      pure function and a field of [World] when it reads the file system,
      the network or the clock. *)

From Stdlib Require Import ZArith List String Ascii Bool Lia QArith.
From Stdlib Require Import Strings.Byte.
From Stdlib Require Import Floats.SpecFloat.
Import ListNotations.
Open Scope Z_scope.

(** ** Bytes and strings *)

Definition bytes := list byte.

Definition bytes_eqb (a b : bytes) : bool :=
  if list_eq_dec Byte.byte_eq_dec a b then true else false.

(** ** package time *)

Definition Time := Z.
Definition Duration := Z.

Definition minDuration : Duration := - 2 ^ 63.
Definition maxDuration : Duration := 2 ^ 63 - 1.

Definition Nanosecond : Duration := 1.
Definition Microsecond : Duration := 1000 * Nanosecond.
Definition Millisecond : Duration := 1000 * Microsecond.
Definition Second : Duration := 1000 * Millisecond.
Definition Minute : Duration := 60 * Second.
Definition Hour : Duration := 60 * Minute.

(** [t.Sub(u)]: the difference, saturated to the int64 range. *)
Definition Time_Sub (t u : Time) : Duration :=
  let d := t - u in
  if d <? minDuration then minDuration
  else if maxDuration <? d then maxDuration
  else d.

(** [time.Until(t)] is [t.Sub(time.Now())]. *)
Definition time_Until (now t : Time) : Duration := Time_Sub t now.

(** ** float64 *)

Definition float64 := spec_float.
Definition prec : Z := 53.
Definition emax : Z := 1024.

(** [float64(z)] for an integer [z]; exact when [|z| < 2^53]. *)
Definition float64_of_int (z : Z) : float64 := binary_normalize prec emax z 0 false.

Definition f64_add : float64 -> float64 -> float64 := SFadd prec emax.
Definition f64_sub : float64 -> float64 -> float64 := SFsub prec emax.
Definition f64_mul : float64 -> float64 -> float64 := SFmul prec emax.
Definition f64_div : float64 -> float64 -> float64 := SFdiv prec emax.

(** [d.Hours()]:
    [hour := d / Hour; nsec := d % Hour;
     return float64(hour) + float64(nsec)/(60*60*1e9)].
    Go's [/] and [%] on integers truncate toward zero. *)
Definition Duration_Hours (d : Duration) : float64 :=
  let hour := Z.quot d Hour in
  let nsec := Z.rem d Hour in
  f64_add (float64_of_int hour)
          (f64_div (float64_of_int nsec) (float64_of_int (60 * 60 * 1000000000))).

Definition minInt : Z := - 2 ^ 63.
Definition maxInt : Z := 2 ^ 63 - 1.

(** The integer part of a finite float, toward zero. *)
Definition float64_trunc (f : float64) : option Z :=
  match f with
  | S754_zero _ => Some 0
  | S754_finite s m e =>
      let a := if 0 <=? e then Zpos m * 2 ^ e else Zpos m / 2 ^ (- e) in
      Some (if s then - a else a)
  | S754_infinity _ | S754_nan => None
  end.

(** [int(f)] for a float64 [f]: the fraction is discarded; when the value
    is not representable in [int] (64 bits) the conversion succeeds and the
    result is implementation-dependent, here [indef f]. *)
Definition int_of_float64 (indef : float64 -> Z) (f : float64) : Z :=
  match float64_trunc f with
  | Some z => if (minInt <=? z) && (z <=? maxInt) then z else indef f
  | None => indef f
  end.

(** The exact value of a finite float as a rational. *)
Definition float64_value (f : float64) : Q :=
  match f with
  | S754_finite s m e =>
      let n := if s then Zneg m else Zpos m in
      if 0 <=? e then inject_Z (n * 2 ^ e) else Qmake n (Z.to_pos (2 ^ (- e)))
  | _ => 0%Q
  end.

(** ** package pem, package x509 *)

Record Block := {
  Type_ : string;
  Headers : list (string * string);
  Bytes : bytes
}.

Record Certificate := {
  Raw : bytes;
  NotBefore : Time;
  NotAfter : Time
}.

(** [c.Equal(other)] compares the raw encodings. *)
Definition Certificate_Equal (c other : Certificate) : bool :=
  bytes_eqb (Raw c) (Raw other).

Definition CertPool := list Certificate.

Definition NewCertPool : CertPool := [].

Definition CertPool_contains (s : CertPool) (cert : Certificate) : bool :=
  existsb (fun c => Certificate_Equal c cert) s.

(** [s.AddCert(cert)]: a certificate already in the pool is not added
    again. *)
Definition AddCert (s : CertPool) (cert : Certificate) : CertPool :=
  if CertPool_contains s cert then s else s ++ [cert].

Inductive ExtKeyUsage :=
| ExtKeyUsageAny
| ExtKeyUsageServerAuth
| ExtKeyUsageClientAuth.

Record VerifyOptions := {
  DNSName : string;
  Intermediates : CertPool;
  Roots : option CertPool;
  KeyUsages : list ExtKeyUsage
}.

(** ** Errors *)

Inductive error :=
| External (msg : string)
    (* an error value made by a collaborator: I/O, network, x509 *)
| FileError (err : error) (file : string)
    (* errs.FileError(err, file) *)
| InvalidPEMBlock (file : string)
    (* errors.Errorf("%s contains an invalid PEM block", file) *)
| WithStack (err : error)
    (* errors.WithStack(err) *)
| NoPEMCertificateBlocks (file : string)
    (* errors.Errorf("%s contains no PEM certificate blocks", file) *)
| IntermediateListFailure (file : string)
    (* errors.Errorf("failure creating intermediate list from certificate '%s'", file) *)
| RootPoolFailure (err : error) (roots : string)
    (* errors.Wrapf(err, "failure to load root certificate pool from input path '%s'", roots) *)
| VerdancyFailure
    (* errors.Errorf("Failure to determine verdancy for certificate") *)
| VerifyFailure (err : error).
    (* errors.Wrapf(err, "failed to verify certificate") *)

(** ** The command line, the libraries and the world *)

Record Context := {
  Args : list string;
  host : string;
  verdancy : bool;
  serverName : string;
  roots : string
}.

(** [ctx.Args().Get(n)]: the empty string when there is no such argument. *)
Definition Args_Get (ctx : Context) (n : nat) : string := nth n (Args ctx) EmptyString.

Record Lib := {
  (* errs.NumberOfArguments(ctx, n) *)
  NumberOfArguments : Context -> nat -> option error;
  (* trimURL(s) = (addr, isURL, err) *)
  trimURL : string -> error + (string * bool);
  (* pem.Decode(data) = (block, rest) *)
  pem_Decode : bytes -> option Block * bytes;
  (* pem.EncodeToMemory(block) *)
  pem_EncodeToMemory : Block -> bytes;
  (* x509.ParseCertificate(der) *)
  x509_ParseCertificate : bytes -> error + Certificate;
  (* cert.Verify(opts), at the given current time; the chains are dropped *)
  Certificate_Verify : Time -> Certificate -> VerifyOptions -> option error;
  (* int(f) where f is not representable *)
  int_indefinite : float64 -> Z
}.

Record World := {
  (* ioutil.ReadFile(name) *)
  ioutil_ReadFile : string -> error + bytes;
  (* x509util.ReadCertPool(path) = (pool, err) *)
  x509util_ReadCertPool : string -> option CertPool * option error;
  (* getPeerCertificates(addr, serverName, roots, insecure) *)
  getPeerCertificates : string -> string -> string -> bool -> error + list Certificate;
  (* time.Now() *)
  time_Now : Time
}.

(** What a run of the command leaves behind: what it wrote to the
    standard output, and whether it returned (with an error or [nil]) or
    panicked. *)
Inductive outcome :=
| Return (err : option error)
| Panic.

Definition Run := (string * outcome)%type.

(** ** The verdancy levels

    The digit written in verdancy mode: 0 fresh, 1 aging, 2 stale,
    3 expired. *)

Inductive VerdancyLevel := Fresh | Aging | Stale | Expired.

Definition esc : string := String (ascii_of_nat 27) EmptyString.
Definition newline : string := String (ascii_of_nat 10) EmptyString.

Definition red : string := (esc ++ "[31m")%string.
Definition green : string := (esc ++ "[32m")%string.
Definition yellow : string := (esc ++ "[33m")%string.
Definition reset : string := (esc ++ "[0m")%string.

(** [fmt.Printf("%s <digit> %s\n", color, reset)] *)
Definition Printf_level (color digit : string) : string :=
  (color ++ " " ++ digit ++ " " ++ reset ++ newline)%string.

(** The level a line of output stands for. *)
Definition level_of_output (out : string) : option VerdancyLevel :=
  if String.eqb out (Printf_level red "3") then Some Expired
  else if String.eqb out (Printf_level red "2") then Some Stale
  else if String.eqb out (Printf_level yellow "1") then Some Aging
  else if String.eqb out (Printf_level green "0") then Some Fresh
  else None.

Section VerifyAction.

Variable L : Lib.

(** *** The certificate from a PEM file (verify.go, lines 141-170)

    [decodeLoop] is the [for len(crtBytes) > 0] loop; [fuel] bounds the
    number of iterations and [None] means that it ran out. The state
    of the loop is the rest of the buffer, the leaf found so far and
    the re-encoded intermediates. *)

Definition LoopState := (option Certificate * bytes)%type.

Fixpoint decodeLoop (fuel : nat) (crtFile : string) (crtBytes : bytes)
         (cert : option Certificate) (ipems : bytes)
  : option (error + LoopState) :=
  match crtBytes with
  | [] => Some (inr (cert, ipems))
  | _ :: _ =>
      match fuel with
      | O => None
      | S fuel' =>
          let (block, crtBytes') := pem_Decode L crtBytes in
          match block with
          | None => Some (inl (InvalidPEMBlock crtFile))
          | Some block =>
              if negb (String.eqb (Type_ block) "CERTIFICATE")
              then decodeLoop fuel' crtFile crtBytes' cert ipems
              else
                match cert with
                | None =>
                    match x509_ParseCertificate L (Bytes block) with
                    | inl err => Some (inl (WithStack err))
                    | inr c => decodeLoop fuel' crtFile crtBytes' (Some c) ipems
                    end
                | Some _ =>
                    decodeLoop fuel' crtFile crtBytes' cert
                               (ipems ++ pem_EncodeToMemory L block)
                end
          end
      end
  end.

(** [s.AppendCertsFromPEM(pemCerts)] of crypto/x509: every block that
    is a certificate without headers and that parses is added; the
    result says whether one was. *)
Fixpoint AppendCertsFromPEM_loop (fuel : nat) (s : CertPool) (pemCerts : bytes)
         (ok : bool) : option (CertPool * bool) :=
  match pemCerts with
  | [] => Some (s, ok)
  | _ :: _ =>
      match fuel with
      | O => None
      | S fuel' =>
          let (block, pemCerts') := pem_Decode L pemCerts in
          match block with
          | None => Some (s, ok)
          | Some block =>
              if negb (String.eqb (Type_ block) "CERTIFICATE")
                 || negb (Nat.eqb (List.length (Headers block)) 0)
              then AppendCertsFromPEM_loop fuel' s pemCerts' ok
              else
                match x509_ParseCertificate L (Bytes block) with
                | inl _ => AppendCertsFromPEM_loop fuel' s pemCerts' ok
                | inr cert => AppendCertsFromPEM_loop fuel' (AddCert s cert) pemCerts' true
                end
          end
      end
  end.

Definition AppendCertsFromPEM (s : CertPool) (pemCerts : bytes)
  : option (CertPool * bool) :=
  AppendCertsFromPEM_loop (List.length pemCerts) s pemCerts false.

(** The file branch after [ioutil.ReadFile]: the loop, then the two
    checks that follow it. *)
Definition decomposePEM (crtFile : string) (crtBytes : bytes)
           (intermediatePool : CertPool)
  : option (error + (Certificate * CertPool)) :=
  match decodeLoop (List.length crtBytes) crtFile crtBytes None [] with
  | None => None
  | Some (inl err) => Some (inl err)
  | Some (inr (None, _)) => Some (inl (NoPEMCertificateBlocks crtFile))
  | Some (inr (Some cert, ipems)) =>
      match ipems with
      | [] => Some (inr (cert, intermediatePool))
      | _ :: _ =>
          match AppendCertsFromPEM intermediatePool ipems with
          | None => None
          | Some (pool, true) => Some (inr (cert, pool))
          | Some (_, false) => Some (inl (IntermediateListFailure crtFile))
          end
      end
  end.

(** *** The leaf and the intermediate pool (lines 124-171) *)

Definition loadCertificate (w : World) (ctx : Context)
  : option (outcome + (Certificate * CertPool)) :=
  let crtFile := Args_Get ctx 0 in
  let intermediatePool := NewCertPool in
  match trimURL L crtFile with
  | inl err => Some (inl (Return (Some err)))
  | inr (addr, true) =>
      match getPeerCertificates w addr (serverName ctx) (roots ctx) false with
      | inl err => Some (inl (Return (Some err)))
      | inr peerCertificates =>
          match peerCertificates with
          | [] => Some (inl Panic)   (* peerCertificates[0]: index out of range *)
          | cert :: _ =>
              Some (inr (cert, fold_left AddCert peerCertificates intermediatePool))
          end
      end
  | inr (_, false) =>
      match ioutil_ReadFile w crtFile with
      | inl err => Some (inl (Return (Some (FileError err crtFile))))
      | inr crtBytes =>
          match decomposePEM crtFile crtBytes intermediatePool with
          | None => None
          | Some (inl err) => Some (inl (Return (Some err)))
          | Some (inr r) => Some (inr r)
          end
      end
  end.

(** *** The root pool (lines 173-179)

    [rootPool] starts as [nil]. When [roots] is not empty it is assigned
    the pool that [x509util.ReadCertPool] returns; on an error the
    wrapped error is built, its value is dropped, and the function goes
    on. *)
Definition loadRoots (w : World) (roots : string) : option CertPool :=
  if String.eqb roots EmptyString then None
  else
    let (rootPool, err) := x509util_ReadCertPool w roots in
    match err with
    | Some err => let _ := RootPoolFailure err roots in rootPool
    | None => rootPool
    end.

(** *** Verdancy (lines 181-222) *)

Definition rawPercentUsed (now : Time) (cert : Certificate) : float64 :=
  let remainingValidity := Duration_Hours (time_Until now (NotAfter cert)) in
  let totalValidity := Duration_Hours (Time_Sub (NotAfter cert) (NotBefore cert)) in
  f64_mul (f64_sub (float64_of_int 1) (f64_div remainingValidity totalValidity))
          (float64_of_int 100).

Definition percentUsed (now : Time) (cert : Certificate) : Z :=
  int_of_float64 (int_indefinite L) (rawPercentUsed now cert).

Definition verdancyBands (percentUsed : Z) : Run :=
  if percentUsed >=? 100 then (Printf_level red "3", Return None)
  else if percentUsed >? 90 then (Printf_level red "2", Return None)
  else if (percentUsed >? 66) && (percentUsed <? 90)
    then (Printf_level yellow "1", Return None)
  else if (percentUsed <? 66) && (percentUsed >? 1)
    then (Printf_level green "0", Return None)
  else if percentUsed <? 1 then (Printf_level green "0", Return None)
  else (EmptyString, Return (Some VerdancyFailure)).

Definition verdancyReport (now : Time) (cert : Certificate) : Run :=
  verdancyBands (percentUsed now cert).

(** *** Path validation (lines 224-239) *)

Definition verifyCertificate (now : Time) (host : string)
           (rootPool : option CertPool) (intermediatePool : CertPool)
           (cert : Certificate) : Run :=
  let opts := {| DNSName := host;
                 Roots := rootPool;
                 Intermediates := intermediatePool;
                 KeyUsages := [ExtKeyUsageAny] |} in
  match Certificate_Verify L now cert opts with
  | Some err => (EmptyString, Return (Some (VerifyFailure err)))
  | None => (EmptyString, Return None)
  end.

(** *** [verifyAction] *)

Definition verifyAction (w : World) (ctx : Context) : option Run :=
  match NumberOfArguments L ctx 1 with
  | Some err => Some (EmptyString, Return (Some err))
  | None =>
      match loadCertificate w ctx with
      | None => None
      | Some (inl stop) => Some (EmptyString, stop)
      | Some (inr (cert, intermediatePool)) =>
          let rootPool := loadRoots w (roots ctx) in
          if verdancy ctx then Some (verdancyReport (time_Now w) cert)
          else Some (verifyCertificate (time_Now w) (host ctx) rootPool
                                       intermediatePool cert)
      end
  end.

End VerifyAction.

(** ** Reading a buffer as a sequence of blocks

    [Scan L data bs rest]: decoding [data] again and again, as the loops
    above do, gives the blocks [bs] in this order and leaves [rest]. *)

Definition isCertificate (b : Block) : bool := String.eqb (Type_ b) "CERTIFICATE".

Inductive Scan (L : Lib) : bytes -> list Block -> bytes -> Prop :=
| Scan_done (data : bytes) : Scan L data [] data
| Scan_block (data data' rest : bytes) (b : Block) (bs : list Block) :
    data <> [] ->
    pem_Decode L data = (Some b, data') ->
    Scan L data' bs rest ->
    Scan L data (b :: bs) rest.


(** A decoder that returns a block has consumed some input. *)
Definition Consumes (L : Lib) : Prop :=
  forall (data rest : bytes) (b : Block),
    pem_Decode L data = (Some b, rest) -> (List.length rest < List.length data)%nat.

(** The loop of the file branch, with the fuel that the length of the
    buffer gives. *)
Definition decodeAll (L : Lib) (crtFile : string) (crtBytes : bytes)
           (cert : option Certificate) (ipems : bytes) : option (error + LoopState) :=
  decodeLoop L (List.length crtBytes) crtFile crtBytes cert ipems.

(** ** A small instance

    A library and a world on which the definitions above can be run. A
    buffer is a sequence of two-byte blocks: the tag [C] (a certificate)
    or [K] (a private key), then one byte of contents. A certificate
    whose byte is [n] is valid from the epoch for [n] thousand hours; the
    byte zero does not parse. *)

Module Sample.

Definition Decode (data : bytes) : option Block * bytes :=
  match data with
  | tag :: p :: rest =>
      if Byte.eqb tag "C"%byte
      then (Some {| Type_ := "CERTIFICATE"; Headers := []; Bytes := [p] |}, rest)
      else if Byte.eqb tag "K"%byte
      then (Some {| Type_ := "PRIVATE KEY"; Headers := []; Bytes := [p] |}, rest)
      else (None, data)
  | _ => (None, data)
  end.

Definition EncodeToMemory (b : Block) : bytes :=
  match Bytes b with
  | [p] => [if String.eqb (Type_ b) "CERTIFICATE" then "C"%byte else "K"%byte; p]
  | _ => []
  end.

Definition ParseCertificate (der : bytes) : error + Certificate :=
  match der with
  | [p] =>
      if Byte.eqb p "000"%byte then inl (External "x509: malformed certificate")
      else inr {| Raw := der;
                  NotBefore := 0;
                  NotAfter := Z.of_N (Byte.to_N p) * 1000 * Hour |}
  | _ => inl (External "x509: malformed certificate")
  end.

Definition Verify (now : Time) (cert : Certificate) (opts : VerifyOptions)
  : option error :=
  if (NotBefore cert <=? now) && (now <=? NotAfter cert) then None
  else Some (External "x509: certificate has expired or is not yet valid").

Definition lib : Lib := {|
  NumberOfArguments := fun ctx n =>
    if Nat.eqb (List.length (Args ctx)) n then None
    else Some (External "wrong number of arguments");
  trimURL := fun s =>
    if String.prefix "https://" s
    then inr (String.substring 8 (String.length s - 8) s, true)
    else inr (s, false);
  pem_Decode := Decode;
  pem_EncodeToMemory := EncodeToMemory;
  x509_ParseCertificate := ParseCertificate;
  Certificate_Verify := Verify;
  int_indefinite := fun _ => minInt
|}.

Definition leaf : Certificate :=
  {| Raw := ["001"%byte]; NotBefore := 0; NotAfter := 1000 * Hour |}.
Definition ca : Certificate :=
  {| Raw := ["002"%byte]; NotBefore := 0; NotAfter := 2000 * Hour |}.

(** A certificate whose window ends a thousand hours before it starts. *)
Definition reversed : Certificate :=
  {| Raw := ["003"%byte]; NotBefore := 1000 * Hour; NotAfter := 0 |}.

(** One certificate, a key, a second certificate. *)
Definition bundle : bytes :=
  ["C"; "001"; "K"; "007"; "C"; "002"]%byte.

(** The same library with a path validation that accepts nothing. *)
Definition strict : Lib := {|
  NumberOfArguments := NumberOfArguments lib;
  trimURL := trimURL lib;
  pem_Decode := Decode;
  pem_EncodeToMemory := EncodeToMemory;
  x509_ParseCertificate := ParseCertificate;
  Certificate_Verify := fun _ _ _ =>
    Some (External "x509: certificate signed by unknown authority");
  int_indefinite := fun _ => minInt
|}.

(** The file [file] holds [bundle]; the host [example.com] presents
    [leaf] and [ca]; no root file can be read. *)
Definition world (file : string) (now : Time) : World := {|
  ioutil_ReadFile := fun name =>
    if String.eqb name file then inr bundle
    else inl (External "no such file or directory");
  x509util_ReadCertPool := fun path =>
    (None, Some (External "no such file or directory"));
  getPeerCertificates := fun addr _ _ _ =>
    if String.eqb addr "example.com" then inr [leaf; ca]
    else inl (External "connection refused");
  time_Now := now
|}.

Definition context (source host roots : string) (verdancy : bool) : Context := {|
  Args := [source];
  host := host;
  verdancy := verdancy;
  serverName := EmptyString;
  roots := roots
|}.

End Sample.

(** ** More notions for the properties below *)

(** The digit of a level. *)
Definition level_digit (l : VerdancyLevel) : Z :=
  match l with Fresh => 0 | Aging => 1 | Stale => 2 | Expired => 3 end.

(** The certificate that [AppendCertsFromPEM] takes from a block: none
    when the block has headers or its contents do not parse. *)
Definition pooled (L : Lib) (b : Block) : list Certificate :=
  if Nat.eqb (List.length (Headers b)) 0
  then match x509_ParseCertificate L (Bytes b) with
       | inr cert => [cert]
       | inl _ => []
       end
  else [].

(** Decoding reads back the encoding of [b], whatever follows it. *)
Definition reencodes (L : Lib) (b : Block) : Prop :=
  forall rest, pem_Decode L (pem_EncodeToMemory L b ++ rest) = (Some b, rest).

(** A float that is a number other than zero. *)
Definition nonzero_number (f : float64) : bool :=
  match f with
  | S754_finite _ _ _ | S754_infinity _ => true
  | S754_zero _ | S754_nan => false
  end.

(** The validity window of a certificate moved by [T]. *)
Definition shift (T : Time) (cert : Certificate) : Certificate :=
  {| Raw := Raw cert; NotBefore := T + NotBefore cert; NotAfter := T + NotAfter cert |}.

(** More worlds for the sample library: one where a file holds given
    bytes, one where the peer presents a given chain. *)
Module Cases.

Definition file_world (contents : bytes) (now : Time) : World := {|
  ioutil_ReadFile := fun _ => inr contents;
  x509util_ReadCertPool := fun _ => (Some [Sample.ca], None);
  getPeerCertificates := fun _ _ _ _ => inl (External "connection refused");
  time_Now := now
|}.

Definition peer_world (chain : list Certificate) (now : Time) : World := {|
  ioutil_ReadFile := fun _ => inl (External "no such file or directory");
  x509util_ReadCertPool := fun _ => (Some [Sample.ca], None);
  getPeerCertificates := fun _ _ _ _ => inr chain;
  time_Now := now
|}.

Definition cert_block (p : byte) : Block :=
  {| Type_ := "CERTIFICATE"; Headers := []; Bytes := [p] |}.

Definition key_block (p : byte) : Block :=
  {| Type_ := "PRIVATE KEY"; Headers := []; Bytes := [p] |}.

End Cases.

(** * Properties *)

(** ** Time and floats *)

Lemma Time_Sub_eq (t u : Time) (d : Duration) :
  t - u = d -> Time_Sub t u = Time_Sub d 0.
Proof.
  intros <-. unfold Time_Sub. now rewrite Z.sub_0_r.
Qed.

Lemma Time_Sub_diag (T : Time) : Time_Sub T T = 0.
Proof.
  unfold Time_Sub. rewrite Z.sub_diag. reflexivity.
Qed.

Ltac hours := unfold Hour, Minute, Second, Millisecond, Microsecond, Nanosecond; lia.

(** [window d h]: rewrites the two differences of [percentUsed] for a
    validity window that is [d] long, looked at [h] after its start. *)
Ltac window d h :=
  unfold verdancyReport, percentUsed, rawPercentUsed, time_Until;
  cbn [NotAfter NotBefore];
  match goal with
  | |- context [Time_Sub ?a ?now] =>
      match goal with
      | |- context [Time_Sub a ?b] =>
          rewrite (Time_Sub_eq a b d) by hours;
          rewrite (Time_Sub_eq a now (d - h)) by hours
      end
  end.

(** The integer part is at most one away from the value, on the side of
    zero. *)
Lemma float64_trunc_toward_zero (f : float64) (z : Z) :
  float64_trunc f = Some z ->
  ((0 <= float64_value f)%Q ->
     (inject_Z z <= float64_value f)%Q /\ (float64_value f < inject_Z z + 1)%Q) /\
  ((float64_value f <= 0)%Q ->
     (inject_Z z - 1 < float64_value f)%Q /\ (float64_value f <= inject_Z z)%Q).
Proof.
  destruct f as [s | s | | s m e]; unfold float64_trunc, float64_value;
    cbv beta iota zeta; try discriminate; intros Hz;
    apply (f_equal (fun o => match o with Some x => x | None => 0 end)) in Hz;
    cbv beta iota in Hz; subst z.
  - split; intros _; split; reflexivity || easy.
  - replace (Z.neg m) with (- Z.pos m) by reflexivity.
    pose proof (Pos2Z.is_pos m) as Hm. revert Hm.
    generalize (Z.pos m); intros a Hm.
    destruct (Z.leb_spec 0 e) as [He | He].
    + replace (if s then - (a * 2 ^ e) else a * 2 ^ e)
        with ((if s then - a else a) * 2 ^ e) by (destruct s; lia).
      generalize ((if s then - a else a) * 2 ^ e); intros k.
      unfold Qminus; unfold Qle, Qlt, Qplus, Qopp, inject_Z; cbn [Qnum Qden].
      rewrite ?Pos.mul_1_l. split; intros _; split; lia.
    + assert (Hd : 0 < 2 ^ (- e)) by (apply Z.pow_pos_nonneg; lia).
      pose proof (Z.mul_div_le a _ Hd) as Hlo.
      pose proof (Z.mul_succ_div_gt a _ Hd) as Hhi.
      pose proof (Z2Pos.id _ Hd) as Hid.
      revert Hlo Hhi Hid.
      generalize (a / 2 ^ (- e)); generalize (Z.to_pos (2 ^ (- e)));
        generalize (2 ^ (- e)).
      intros d d' q Hlo Hhi Hid.
      destruct s; unfold Qminus; unfold Qle, Qlt, Qplus, Qopp, inject_Z;
        cbn [Qnum Qden];
        rewrite ?Pos.mul_1_l, ?Pos.mul_1_r, ?Hid; split; intros H; split; nia.
Qed.

(** ** The verdancy bands *)

(** The bands leave out exactly three values. *)
Lemma verdancyBands_failure (p : Z) :
  verdancyBands p = (EmptyString, Return (Some VerdancyFailure)) <->
  p = 90 \/ p = 66 \/ p = 1.
Proof.
  unfold verdancyBands. split.
  - destruct (Z.geb_spec p 100); [discriminate|].
    destruct (Z.gtb_spec p 90); [discriminate|].
    destruct (Z.gtb_spec p 66); destruct (Z.ltb_spec p 90); cbn [andb];
      try discriminate;
      destruct (Z.ltb_spec p 66); destruct (Z.gtb_spec p 1); cbn [andb];
      try discriminate;
      destruct (Z.ltb_spec p 1); try discriminate; intros _; lia.
  - intros [-> | [-> | ->]]; reflexivity.
Qed.

(** Every run of the bands prints one level and returns [nil], or prints
    nothing and returns the verdancy error. *)
Lemma verdancyBands_total (p : Z) :
  (exists l, level_of_output (fst (verdancyBands p)) = Some l /\
             snd (verdancyBands p) = Return None) \/
  verdancyBands p = (EmptyString, Return (Some VerdancyFailure)).
Proof.
  unfold verdancyBands.
  destruct (p >=? 100); [left; exists Expired; split; reflexivity|].
  destruct (p >? 90); [left; exists Stale; split; reflexivity|].
  destruct ((p >? 66) && (p <? 90)); [left; exists Aging; split; reflexivity|].
  destruct ((p <? 66) && (p >? 1)); [left; exists Fresh; split; reflexivity|].
  destruct (p <? 1); [left; exists Fresh; split; reflexivity|].
  now right.
Qed.

Lemma verdancyBands_expired (p : Z) :
  100 <= p -> verdancyBands p = (Printf_level red "3", Return None).
Proof.
  intros H. unfold verdancyBands. destruct (Z.geb_spec p 100); [reflexivity | lia].
Qed.

Lemma verdancyBands_fresh (p : Z) :
  p < 1 -> verdancyBands p = (Printf_level green "0", Return None).
Proof.
  intros H. unfold verdancyBands.
  destruct (Z.geb_spec p 100); [lia|]. destruct (Z.gtb_spec p 90); [lia|].
  destruct (Z.gtb_spec p 66); [lia|]. destruct (Z.gtb_spec p 1); [lia|].
  destruct (Z.ltb_spec p 1); [|lia]. cbn [andb]. now destruct (p <? 66).
Qed.

(** The worked examples of the validity window of a thousand hours. *)
Lemma percentUsed_window_1000 (L : Lib) (raw : bytes) (T : Time) :
  let cert := {| Raw := raw; NotBefore := T; NotAfter := T + 1000 * Hour |} in
  percentUsed L (T + 999 * Hour) cert = 99 /\
  percentUsed L (T + 1001 * Hour) cert = 100 /\
  percentUsed L (T + 2000 * Hour) cert = 200 /\
  percentUsed L (T + 500 * Hour) cert = 50 /\
  percentUsed L (T - 500 * Hour) cert = -50.
Proof.
  intros cert; subst cert.
  repeat split.
  - window (1000 * Hour) (999 * Hour). now vm_compute.
  - window (1000 * Hour) (1001 * Hour). now vm_compute.
  - window (1000 * Hour) (2000 * Hour). now vm_compute.
  - window (1000 * Hour) (500 * Hour). now vm_compute.
  - window (1000 * Hour) (- (500 * Hour)). now vm_compute.
Qed.

(** A window that ends a thousand hours before it starts. *)
Lemma percentUsed_window_negative (L : Lib) (raw : bytes) (T : Time) :
  percentUsed L (T + 500 * Hour)
              {| Raw := raw; NotBefore := T + 1000 * Hour; NotAfter := T |} = 50.
Proof.
  window (- (1000 * Hour)) (- (500 * Hour)). now vm_compute.
Qed.

(** With an empty window the quotient is an infinity or not a number. *)
Lemma rawPercentUsed_window_empty (raw : bytes) (T now : Time) :
  float64_trunc (rawPercentUsed now {| Raw := raw; NotBefore := T; NotAfter := T |})
  = None.
Proof.
  unfold rawPercentUsed. cbn [NotAfter NotBefore]. rewrite Time_Sub_diag.
  destruct (Duration_Hours (time_Until now T)) as [s | s | | s m e];
    try destruct s; reflexivity.
Qed.

(** ** Verdancy: the claims *)

(** C2 (amended). [percentUsed] is the float64 value
    [(1 - remainingHours/totalHours) * 100] with its fraction cut off, not
    rounded: whenever that value is finite and fits an [int], [percentUsed]
    is its integer part toward zero. In particular for notBefore = T,
    notAfter = T + 1000h and now = T + 999h (the value is 99.9)
    [percentUsed] is 99 and the level written is 2, stale. *)
Theorem percentUsed_truncates (L : Lib) (now : Time) (cert : Certificate) (z : Z) :
  float64_trunc (rawPercentUsed now cert) = Some z ->
  minInt <= z <= maxInt ->
  let v := float64_value (rawPercentUsed now cert) in
  percentUsed L now cert = z /\
  ((0 <= v)%Q -> (inject_Z z <= v)%Q /\ (v < inject_Z z + 1)%Q) /\
  ((v <= 0)%Q -> (inject_Z z - 1 < v)%Q /\ (v <= inject_Z z)%Q) /\
  (forall (raw : bytes) (T : Time),
      let c := {| Raw := raw; NotBefore := T; NotAfter := T + 1000 * Hour |} in
      percentUsed L (T + 999 * Hour) c = 99 /\
      verdancyReport L (T + 999 * Hour) c = (Printf_level red "2", Return None) /\
      level_of_output (fst (verdancyReport L (T + 999 * Hour) c)) = Some Stale).
Proof.
  intros Hz Hrange v.
  pose proof (float64_trunc_toward_zero _ _ Hz) as [Hpos Hneg].
  repeat split; try (apply Hpos; assumption); try (apply Hneg; assumption).
  - unfold percentUsed, int_of_float64. rewrite Hz.
    destruct (Z.leb_spec minInt z); destruct (Z.leb_spec z maxInt);
      cbn [andb]; lia || reflexivity.
  - apply percentUsed_window_1000.
  - unfold verdancyReport.
    rewrite (proj1 (percentUsed_window_1000 L raw T)). reflexivity.
  - unfold verdancyReport.
    rewrite (proj1 (percentUsed_window_1000 L raw T)). reflexivity.
Qed.

Lemma percentUsed_truncates_witness :
  percentUsed Sample.lib (999 * Hour) Sample.leaf = 99.
Proof.
  apply (percentUsed_truncates Sample.lib (999 * Hour) Sample.leaf 99).
  - reflexivity.
  - unfold minInt, maxInt. lia.
Defined.

(** C2 as stated fails: at notBefore = 0, notAfter = 1000h, now = 999h
    [percentUsed] is not 100 and the level is not expired. *)
Lemma percentUsed_rounds_counterexample :
  ~ (percentUsed Sample.lib (999 * Hour) Sample.leaf = 100 /\
     level_of_output (fst (verdancyReport Sample.lib (999 * Hour) Sample.leaf))
     = Some Expired).
Proof.
  vm_compute. intros [H _]. discriminate H.
Qed.

(** C3 (amended). There is no check of the validity window. For every
    certificate the calculation divides, does not panic, and either writes
    one level and returns [nil] or writes nothing and returns the verdancy
    error. With notBefore = notAfter the quotient is not finite and
    [percentUsed] is what the conversion to [int] makes of it; with a
    negative window (notBefore = T + 1000h, notAfter = T, now = T + 500h)
    [percentUsed] is 50 and level 0 is written. *)
Theorem verdancy_no_window_check (L : Lib) (now : Time) (cert : Certificate) :
  ((exists l, level_of_output (fst (verdancyReport L now cert)) = Some l /\
              snd (verdancyReport L now cert) = Return None) \/
   verdancyReport L now cert = (EmptyString, Return (Some VerdancyFailure))) /\
  (forall (raw : bytes) (T : Time),
      let c := {| Raw := raw; NotBefore := T; NotAfter := T |} in
      float64_trunc (rawPercentUsed now c) = None /\
      percentUsed L now c = int_indefinite L (rawPercentUsed now c) /\
      verdancyReport L now c = verdancyBands (int_indefinite L (rawPercentUsed now c))) /\
  (forall (raw : bytes) (T : Time),
      let c := {| Raw := raw; NotBefore := T + 1000 * Hour; NotAfter := T |} in
      percentUsed L (T + 500 * Hour) c = 50 /\
      verdancyReport L (T + 500 * Hour) c = (Printf_level green "0", Return None)).
Proof.
  split; [apply verdancyBands_total|]. split.
  - intros raw T c.
    pose proof (rawPercentUsed_window_empty raw T now) as H. fold c in H.
    assert (Hp : percentUsed L now c = int_indefinite L (rawPercentUsed now c)).
    { unfold percentUsed, int_of_float64. now rewrite H. }
    repeat split; try assumption.
    unfold verdancyReport. now rewrite Hp.
  - intros raw T c. subst c. split.
    + apply percentUsed_window_negative.
    + unfold verdancyReport. now rewrite percentUsed_window_negative.
Qed.

(** C3 as stated fails: for a certificate whose window is negative
    (notBefore = 1000h, notAfter = 0) no error is returned at now = 500h. *)
Lemma degenerate_window_counterexample :
  ~ (Time_Sub (NotAfter Sample.reversed) (NotBefore Sample.reversed) <= 0 ->
     exists err, verdancyReport Sample.lib (500 * Hour) Sample.reversed
                 = (EmptyString, Return (Some err))).
Proof.
  intros H.
  assert (Hw : Time_Sub (NotAfter Sample.reversed) (NotBefore Sample.reversed) <= 0)
    by (vm_compute; discriminate).
  destruct (H Hw) as [err He]. vm_compute in He. discriminate He.
Qed.

(** C7. When [percentUsed] is 90, 66 or 1 no band applies: the run writes
    no level and returns the verdancy error. *)
Theorem verdancy_gap_fails (L : Lib) (now : Time) (cert : Certificate) :
  percentUsed L now cert = 90 \/ percentUsed L now cert = 66 \/
  percentUsed L now cert = 1 ->
  verdancyReport L now cert = (EmptyString, Return (Some VerdancyFailure)) /\
  level_of_output (fst (verdancyReport L now cert)) = None.
Proof.
  intros H. apply verdancyBands_failure in H. unfold verdancyReport.
  rewrite H. split; reflexivity.
Qed.

Lemma verdancy_gap_fails_witness :
  verdancyReport Sample.lib (900 * Hour) Sample.leaf
  = (EmptyString, Return (Some VerdancyFailure)) /\
  verdancyReport Sample.lib (661 * Hour) Sample.leaf
  = (EmptyString, Return (Some VerdancyFailure)) /\
  verdancyReport Sample.lib (10 * Hour) Sample.leaf
  = (EmptyString, Return (Some VerdancyFailure)).
Proof.
  split; [|split].
  - apply (verdancy_gap_fails Sample.lib (900 * Hour) Sample.leaf).
    left. reflexivity.
  - apply (verdancy_gap_fails Sample.lib (661 * Hour) Sample.leaf).
    right; left. reflexivity.
  - apply (verdancy_gap_fails Sample.lib (10 * Hour) Sample.leaf).
    right; right. reflexivity.
Defined.

(** C8 (amended). [percentUsed] is not clamped before the bands: every
    value of 100 or more is expired and every value below 1 is fresh. For
    notBefore = T and notAfter = T + 1000h: at now = T + 1001h it is 100
    (not more) and at now = T + 2000h it is 200, both expired; at
    now = T + 500h it is 50 and at now = T - 500h it is -50, both fresh. *)
Theorem percentUsed_not_clamped (L : Lib) (raw : bytes) (T : Time) :
  let cert := {| Raw := raw; NotBefore := T; NotAfter := T + 1000 * Hour |} in
  let level now := level_of_output (fst (verdancyReport L now cert)) in
  (percentUsed L (T + 1001 * Hour) cert = 100 /\ level (T + 1001 * Hour) = Some Expired) /\
  (percentUsed L (T + 2000 * Hour) cert = 200 /\ level (T + 2000 * Hour) = Some Expired) /\
  (percentUsed L (T + 500 * Hour) cert = 50 /\ level (T + 500 * Hour) = Some Fresh) /\
  (percentUsed L (T - 500 * Hour) cert = -50 /\ level (T - 500 * Hour) = Some Fresh) /\
  (forall p, 100 <= p -> level_of_output (fst (verdancyBands p)) = Some Expired) /\
  (forall p, p < 1 -> level_of_output (fst (verdancyBands p)) = Some Fresh).
Proof.
  intros cert level.
  destruct (percentUsed_window_1000 L raw T) as (_ & H1 & H2 & H3 & H4).
  fold cert in H1, H2, H3, H4. subst level. unfold verdancyReport.
  rewrite H1, H2, H3, H4.
  split; [|split; [|split; [|split; [|split]]]]; try (split; reflexivity).
  - intros p Hp. now rewrite verdancyBands_expired.
  - intros p Hp. now rewrite verdancyBands_fresh.
Qed.

Lemma percentUsed_not_clamped_witness :
  level_of_output (fst (verdancyBands 200)) = Some Expired /\
  level_of_output (fst (verdancyBands (-50))) = Some Fresh.
Proof.
  destruct (percentUsed_not_clamped Sample.lib [] 0) as (_ & _ & _ & _ & Hhi & Hlo).
  split; [apply Hhi | apply Hlo]; lia.
Defined.

(** C8 as stated fails: with notBefore = 0 and notAfter = 1000h, at
    now = 1001h [percentUsed] does not exceed 100. *)
Lemma percentUsed_exceeds_counterexample :
  ~ (percentUsed Sample.lib (1001 * Hour) Sample.leaf > 100 /\
     level_of_output (fst (verdancyReport Sample.lib (1001 * Hour) Sample.leaf))
     = Some Expired /\
     percentUsed Sample.lib (500 * Hour) Sample.leaf = 50 /\
     level_of_output (fst (verdancyReport Sample.lib (500 * Hour) Sample.leaf))
     = Some Fresh).
Proof.
  intros [H _]. vm_compute in H. discriminate H.
Qed.


(** ** The PEM loop *)

Section Decoding.

Variable L : Lib.
Hypothesis consumes : Consumes L.
Variable crtFile : string.

Lemma decodeLoop_fuel_irrelevant (n fuel1 fuel2 : nat) :
  forall (data : bytes) (cert : option Certificate) (ipems : bytes),
    (List.length data <= n)%nat ->
    (List.length data <= fuel1)%nat ->
    (List.length data <= fuel2)%nat ->
    decodeLoop L fuel1 crtFile data cert ipems
    = decodeLoop L fuel2 crtFile data cert ipems.
Proof.
  revert fuel1 fuel2. induction n as [|n IH]; intros fuel1 fuel2 data cert ipems Hn H1 H2.
  - destruct data; [|simpl in Hn; lia]. now destruct fuel1, fuel2.
  - destruct data as [|x data]; [now destruct fuel1, fuel2|].
    destruct fuel1 as [|fuel1]; [simpl in H1; lia|].
    destruct fuel2 as [|fuel2]; [simpl in H2; lia|].
    cbn [decodeLoop].
    destruct (pem_Decode L (x :: data)) as [[b|] data'] eqn:E; [|reflexivity].
    apply consumes in E. simpl in E, Hn, H1, H2.
    destruct (negb (String.eqb (Type_ b) "CERTIFICATE")); [apply IH; lia|].
    destruct cert as [c|]; [apply IH; lia|].
    destruct (x509_ParseCertificate L (Bytes b)); [reflexivity|apply IH; lia].
Qed.

Lemma decodeAll_nil (cert : option Certificate) (ipems : bytes) :
  decodeAll L crtFile [] cert ipems = Some (inr (cert, ipems)).
Proof. reflexivity. Qed.

Lemma decodeAll_invalid (data : bytes) (cert : option Certificate) (ipems : bytes) :
  data <> [] -> fst (pem_Decode L data) = None ->
  decodeAll L crtFile data cert ipems = Some (inl (InvalidPEMBlock crtFile)).
Proof.
  intros Hd Hn. destruct data as [|x data]; [contradiction|].
  unfold decodeAll. cbn [List.length decodeLoop].
  destruct (pem_Decode L (x :: data)) as [[b|] data']; [discriminate|reflexivity].
Qed.

(** One turn of the loop on a block that decodes. *)
Lemma decodeAll_block (data data' : bytes) (b : Block)
      (cert : option Certificate) (ipems : bytes) :
  data <> [] -> pem_Decode L data = (Some b, data') ->
  decodeAll L crtFile data cert ipems =
  if negb (isCertificate b) then decodeAll L crtFile data' cert ipems
  else match cert with
       | None =>
           match x509_ParseCertificate L (Bytes b) with
           | inl err => Some (inl (WithStack err))
           | inr c => decodeAll L crtFile data' (Some c) ipems
           end
       | Some _ => decodeAll L crtFile data' cert (ipems ++ pem_EncodeToMemory L b)
       end.
Proof.
  intros Hd E. destruct data as [|x data]; [contradiction|].
  unfold decodeAll, isCertificate. cbn [List.length decodeLoop]. rewrite E.
  apply consumes in E. simpl in E.
  assert (F : forall c i, decodeLoop L (List.length data) crtFile data' c i
                          = decodeLoop L (List.length data') crtFile data' c i).
  { intros c i. apply (decodeLoop_fuel_irrelevant (List.length data)); lia. }
  destruct (negb (String.eqb (Type_ b) "CERTIFICATE")); [apply F|].
  destruct cert; [apply F|].
  destruct (x509_ParseCertificate L (Bytes b)); [reflexivity|apply F].
Qed.

(** Once the leaf is known, the certificate blocks of a scanned stretch
    are re-encoded in order and the other blocks are passed over. *)
Lemma decodeAll_scan_intermediates (data rest : bytes) (bs : list Block) :
  Scan L data bs rest ->
  forall (c : Certificate) (ipems : bytes),
    decodeAll L crtFile data (Some c) ipems
    = decodeAll L crtFile rest (Some c)
                (ipems ++ List.concat (map (pem_EncodeToMemory L) (filter isCertificate bs))).
Proof.
  induction 1 as [data | data data' rest b bs Hd E _ IH]; intros c ipems.
  - simpl. now rewrite app_nil_r.
  - rewrite (decodeAll_block data data' b) by assumption.
    cbn [filter]. destruct (isCertificate b); cbn [negb map List.concat].
    + rewrite IH. now rewrite app_assoc.
    + apply IH.
Qed.

(** Before the leaf is known, the first certificate block of a scanned
    stretch is parsed. *)
Lemma decodeAll_scan (data rest : bytes) (bs : list Block) :
  Scan L data bs rest ->
  decodeAll L crtFile data None [] =
  match filter isCertificate bs with
  | [] => decodeAll L crtFile rest None []
  | c :: cs =>
      match x509_ParseCertificate L (Bytes c) with
      | inl err => Some (inl (WithStack err))
      | inr leaf =>
          decodeAll L crtFile rest (Some leaf) (List.concat (map (pem_EncodeToMemory L) cs))
      end
  end.
Proof.
  induction 1 as [data | data data' rest b bs Hd E HS IH].
  - reflexivity.
  - rewrite (decodeAll_block data data' b) by assumption.
    cbn [filter]. destruct (isCertificate b); cbn [negb]; [|exact IH].
    destruct (x509_ParseCertificate L (Bytes b)) as [err|leaf]; [reflexivity|].
    now rewrite (decodeAll_scan_intermediates _ _ _ HS).
Qed.

(** Every buffer scans up to its end or up to bytes that do not decode. *)
Lemma Scan_maximal (data : bytes) :
  exists (bs : list Block) (rest : bytes),
    Scan L data bs rest /\ (rest = [] \/ (rest <> [] /\ fst (pem_Decode L rest) = None)).
Proof.
  remember (List.length data) as n eqn:Hn.
  revert data Hn. induction n as [n IH] using lt_wf_ind. intros data Hn.
  destruct data as [|x data].
  - exists [], []. split; [constructor | now left].
  - destruct (pem_Decode L (x :: data)) as [[b|] data'] eqn:E.
    + pose proof (consumes _ _ _ E) as Hlt.
      destruct (IH (List.length data') ltac:(lia) data' eq_refl) as (bs & rest & HS & Hr).
      exists (b :: bs), rest. split; [|exact Hr].
      econstructor; eauto. discriminate.
    + exists [], (x :: data). split; [constructor|]. right.
      split; [discriminate | now rewrite E].
Qed.

End Decoding.

(** ** Certificate pools *)

Lemma bytes_eqb_eq (a b : bytes) : bytes_eqb a b = true <-> a = b.
Proof.
  unfold bytes_eqb. destruct (list_eq_dec Byte.byte_eq_dec a b); split; congruence.
Qed.

Lemma CertPool_contains_raw (s : CertPool) (cert : Certificate) :
  CertPool_contains s cert = true <-> In (Raw cert) (map Raw s).
Proof.
  unfold CertPool_contains, Certificate_Equal. rewrite existsb_exists, in_map_iff.
  split; intros (c & H1 & H2); exists c.
  - apply bytes_eqb_eq in H2. now split.
  - split; [assumption | now apply bytes_eqb_eq].
Qed.

Lemma AddCert_raw (s : CertPool) (cert : Certificate) (r : bytes) :
  In r (map Raw (AddCert s cert)) <-> In r (map Raw s) \/ r = Raw cert.
Proof.
  unfold AddCert. destruct (CertPool_contains s cert) eqn:E.
  - apply CertPool_contains_raw in E. split; [now left|]. now intros [H | ->].
  - rewrite map_app, in_app_iff. simpl. intuition congruence.
Qed.

Lemma fold_AddCert_raw (xs : list Certificate) :
  forall (s : CertPool) (r : bytes),
    In r (map Raw (fold_left AddCert xs s)) <-> In r (map Raw s) \/ In r (map Raw xs).
Proof.
  induction xs as [|x xs IH]; intros s r; simpl.
  - tauto.
  - rewrite IH, AddCert_raw. intuition congruence.
Qed.

Lemma fold_AddCert_distinct (xs : list Certificate) :
  forall s : CertPool,
    NoDup (map Raw (s ++ xs)) -> fold_left AddCert xs s = s ++ xs.
Proof.
  induction xs as [|x xs IH]; intros s Hnd; simpl.
  - now rewrite app_nil_r.
  - assert (E : AddCert s x = s ++ [x]).
    { unfold AddCert. destruct (CertPool_contains s x) eqn:E; [|reflexivity].
      apply CertPool_contains_raw in E. rewrite map_app in Hnd. simpl in Hnd.
      apply NoDup_remove_2 in Hnd. exfalso. apply Hnd.
      apply in_or_app. now left. }
    rewrite E, IH; rewrite <- app_assoc; [reflexivity | exact Hnd].
Qed.

(** ** The PEM bundle: the claims *)

Lemma decomposePEM_decodeAll (L : Lib) (crtFile : string) (data : bytes)
      (intermediatePool : CertPool) :
  decomposePEM L crtFile data intermediatePool =
  match decodeAll L crtFile data None [] with
  | None => None
  | Some (inl err) => Some (inl err)
  | Some (inr (None, _)) => Some (inl (NoPEMCertificateBlocks crtFile))
  | Some (inr (Some cert, ipems)) =>
      match ipems with
      | [] => Some (inr (cert, intermediatePool))
      | _ :: _ =>
          match AppendCertsFromPEM L intermediatePool ipems with
          | None => None
          | Some (pool, true) => Some (inr (cert, pool))
          | Some (_, false) => Some (inl (IntermediateListFailure crtFile))
          end
      end
  end.
Proof. reflexivity. Qed.

(** What the loop returns, read off a scan that stops at the end of the
    buffer or at bytes that do not decode. *)
Lemma decodeAll_outcome (L : Lib) (crtFile : string) (data rest : bytes)
      (bs : list Block) :
  Consumes L -> Scan L data bs rest ->
  decodeAll L crtFile data None [] =
  match filter isCertificate bs with
  | [] =>
      match rest with
      | [] => Some (inr (None, []))
      | _ :: _ => decodeAll L crtFile rest None []
      end
  | c :: cs =>
      match x509_ParseCertificate L (Bytes c) with
      | inl err => Some (inl (WithStack err))
      | inr leaf =>
          match rest with
          | [] => Some (inr (Some leaf, List.concat (map (pem_EncodeToMemory L) cs)))
          | _ :: _ =>
              decodeAll L crtFile rest (Some leaf)
                        (List.concat (map (pem_EncodeToMemory L) cs))
          end
      end
  end.
Proof.
  intros consumes HS. rewrite (decodeAll_scan L consumes crtFile _ _ _ HS).
  destruct (filter isCertificate bs) as [|c cs]; [now destruct rest|].
  destruct (x509_ParseCertificate L (Bytes c)); [reflexivity | now destruct rest].
Qed.


(** The sample decoder consumes what it decodes. *)
Lemma Sample_Decode_consumes : Consumes Sample.lib.
Proof.
  intros data rest b H. cbn [pem_Decode Sample.lib] in H. unfold Sample.Decode in H.
  destruct data as [|tag [|p data]]; try discriminate H.
  destruct (Byte.eqb tag "C"%byte).
  - injection H as _ <-. simpl. lia.
  - destruct (Byte.eqb tag "K"%byte); [|discriminate H].
    injection H as _ <-. simpl. lia.
Qed.



(** ** The whole command *)

Lemma fold_AddCert_keeps (xs : list Certificate) :
  forall (s : CertPool) (x : Certificate), In x s -> In x (fold_left AddCert xs s).
Proof.
  induction xs as [|y xs IH]; intros s x H; simpl; [exact H|].
  apply IH. unfold AddCert. destruct (CertPool_contains s y); [exact H|].
  apply in_or_app. now left.
Qed.

(** C1 (the code does otherwise). When the root pool cannot be loaded,
    the wrapped error is dropped: [rootPool] is whatever the loader
    returned and the command goes on to verdancy or to path validation. *)
Theorem root_load_failure_ignored
        (L : Lib) (w : World) (ctx : Context) (pool : option CertPool) (err : error)
        (cert : Certificate) (intermediatePool : CertPool) :
  roots ctx <> EmptyString ->
  x509util_ReadCertPool w (roots ctx) = (pool, Some err) ->
  NumberOfArguments L ctx 1 = None ->
  loadCertificate L w ctx = Some (inr (cert, intermediatePool)) ->
  loadRoots w (roots ctx) = pool /\
  verifyAction L w ctx =
  Some (if verdancy ctx then verdancyReport L (time_Now w) cert
        else verifyCertificate L (time_Now w) (host ctx) pool intermediatePool cert).
Proof.
  intros Hroots Hload Hargs Hcert.
  assert (Hpool : loadRoots w (roots ctx) = pool).
  { unfold loadRoots. rewrite Hload.
    destruct (String.eqb_spec (roots ctx) EmptyString); [contradiction | reflexivity]. }
  split; [exact Hpool|].
  unfold verifyAction. rewrite Hargs, Hcert, Hpool. now destruct (verdancy ctx).
Qed.

Lemma root_load_failure_ignored_witness :
  verifyAction Sample.lib (Sample.world "bundle.pem" (500 * Hour))
               (Sample.context "bundle.pem" EmptyString "missing.pem" true)
  = Some (Printf_level green "0", Return None) /\
  verifyAction Sample.lib (Sample.world "bundle.pem" (500 * Hour))
               (Sample.context "bundle.pem" EmptyString "missing.pem" false)
  = Some (EmptyString, Return None).
Proof.
  split.
  - destruct (root_load_failure_ignored
                Sample.lib (Sample.world "bundle.pem" (500 * Hour))
                (Sample.context "bundle.pem" EmptyString "missing.pem" true)
                None (External "no such file or directory")
                Sample.leaf [Sample.ca]) as [_ H];
      [discriminate | reflexivity | reflexivity | reflexivity |].
    rewrite H. reflexivity.
  - destruct (root_load_failure_ignored
                Sample.lib (Sample.world "bundle.pem" (500 * Hour))
                (Sample.context "bundle.pem" EmptyString "missing.pem" false)
                None (External "no such file or directory")
                Sample.leaf [Sample.ca]) as [_ H];
      [discriminate | reflexivity | reflexivity | reflexivity |].
    rewrite H. reflexivity.
Defined.

(** C4 (the code does otherwise). For a URL whose peer presents a chain
    that is not empty, the first certificate is the leaf and every
    certificate of the chain, the first one too, is added to the
    intermediate pool. *)
Theorem peer_chain_all_intermediates
        (L : Lib) (w : World) (ctx : Context) (addr : string)
        (cert : Certificate) (rest : list Certificate) :
  trimURL L (Args_Get ctx 0) = inr (addr, true) ->
  getPeerCertificates w addr (serverName ctx) (roots ctx) false = inr (cert :: rest) ->
  exists pool : CertPool,
    loadCertificate L w ctx = Some (inr (cert, pool)) /\
    pool = fold_left AddCert (cert :: rest) NewCertPool /\
    In cert pool /\
    (forall r, In r (map Raw pool) <-> In r (map Raw (cert :: rest))).
Proof.
  intros Hurl Hpeer. exists (fold_left AddCert (cert :: rest) NewCertPool).
  split; [|split; [reflexivity|split]].
  - unfold loadCertificate. now rewrite Hurl, Hpeer.
  - cbn [fold_left]. apply fold_AddCert_keeps. now left.
  - intros r. rewrite fold_AddCert_raw. simpl. tauto.
Qed.

Lemma peer_chain_all_intermediates_witness :
  loadCertificate Sample.lib (Sample.world "bundle.pem" 0)
                  (Sample.context "https://example.com" EmptyString EmptyString false)
  = Some (inr (Sample.leaf, [Sample.leaf; Sample.ca])).
Proof.
  destruct (peer_chain_all_intermediates
              Sample.lib (Sample.world "bundle.pem" 0)
              (Sample.context "https://example.com" EmptyString EmptyString false)
              "example.com" Sample.leaf [Sample.ca]) as (pool & H & Hpool & _);
    [reflexivity | reflexivity |].
  rewrite H, Hpool. reflexivity.
Defined.

(** C9. In verdancy mode path validation plays no part, and the output
    and the result depend only on notBefore and notAfter of the leaf and
    on the current time: two runs that differ in the certificate source,
    the pools, the roots, the host and the path validation at hand agree
    as soon as the leaves have the same validity window and the clocks
    show the same time. *)
Theorem verdancy_independent_of_trust
        (L1 L2 : Lib) (w1 w2 : World) (ctx1 ctx2 : Context)
        (cert1 cert2 : Certificate) (pool1 pool2 : CertPool) :
  verdancy ctx1 = true -> verdancy ctx2 = true ->
  NumberOfArguments L1 ctx1 1 = None -> NumberOfArguments L2 ctx2 1 = None ->
  loadCertificate L1 w1 ctx1 = Some (inr (cert1, pool1)) ->
  loadCertificate L2 w2 ctx2 = Some (inr (cert2, pool2)) ->
  NotBefore cert1 = NotBefore cert2 -> NotAfter cert1 = NotAfter cert2 ->
  time_Now w1 = time_Now w2 ->
  int_indefinite L1 = int_indefinite L2 ->
  verifyAction L1 w1 ctx1 = verifyAction L2 w2 ctx2 /\
  verifyAction L1 w1 ctx1 = Some (verdancyBands (percentUsed L1 (time_Now w1) cert1)).
Proof.
  intros Hv1 Hv2 Ha1 Ha2 Hc1 Hc2 Hnb Hna Hnow Hint.
  unfold verifyAction. rewrite Ha1, Ha2, Hc1, Hc2, Hv1, Hv2.
  split; [|reflexivity].
  unfold verdancyReport, percentUsed, rawPercentUsed. now rewrite Hnb, Hna, Hnow, Hint.
Qed.

Lemma verdancy_independent_of_trust_witness :
  verifyAction Sample.lib (Sample.world "bundle.pem" (500 * Hour))
               (Sample.context "bundle.pem" EmptyString EmptyString true)
  = verifyAction Sample.strict (Sample.world "bundle.pem" (500 * Hour))
                 (Sample.context "https://example.com" "other.org" "missing.pem" true).
Proof.
  apply (verdancy_independent_of_trust
           Sample.lib Sample.strict
           (Sample.world "bundle.pem" (500 * Hour)) (Sample.world "bundle.pem" (500 * Hour))
           (Sample.context "bundle.pem" EmptyString EmptyString true)
           (Sample.context "https://example.com" "other.org" "missing.pem" true)
           Sample.leaf Sample.leaf [Sample.ca] [Sample.leaf; Sample.ca]);
    reflexivity.
Defined.

(** ** The fuel is enough

    With a decoder that consumes what it decodes, neither loop runs out
    of fuel: the command always comes to an end. *)

Lemma decodeLoop_returns (L : Lib) (crtFile : string) :
  Consumes L ->
  forall (fuel : nat) (data : bytes) (cert : option Certificate) (ipems : bytes),
    (List.length data <= fuel)%nat ->
    exists r, decodeLoop L fuel crtFile data cert ipems = Some r.
Proof.
  intros consumes fuel. induction fuel as [|fuel IH]; intros data cert ipems Hlen.
  - destruct data; [eexists; reflexivity | simpl in Hlen; lia].
  - destruct data as [|x data]; [eexists; reflexivity|].
    cbn [decodeLoop].
    destruct (pem_Decode L (x :: data)) as [[b|] data'] eqn:E; [|eexists; reflexivity].
    apply consumes in E. simpl in E, Hlen.
    destruct (negb (String.eqb (Type_ b) "CERTIFICATE")); [apply IH; lia|].
    destruct cert; [apply IH; lia|].
    destruct (x509_ParseCertificate L (Bytes b)); [eexists; reflexivity | apply IH; lia].
Qed.

Lemma AppendCertsFromPEM_loop_returns (L : Lib) :
  Consumes L ->
  forall (fuel : nat) (s : CertPool) (pemCerts : bytes) (ok : bool),
    (List.length pemCerts <= fuel)%nat ->
    exists r, AppendCertsFromPEM_loop L fuel s pemCerts ok = Some r.
Proof.
  intros consumes fuel. induction fuel as [|fuel IH]; intros s data ok Hlen.
  - destruct data; [eexists; reflexivity | simpl in Hlen; lia].
  - destruct data as [|x data]; [eexists; reflexivity|].
    cbn [AppendCertsFromPEM_loop].
    destruct (pem_Decode L (x :: data)) as [[b|] data'] eqn:E; [|eexists; reflexivity].
    apply consumes in E. simpl in E, Hlen.
    destruct (negb (String.eqb (Type_ b) "CERTIFICATE")
              || negb (Nat.eqb (List.length (Headers b)) 0)); [apply IH; lia|].
    destruct (x509_ParseCertificate L (Bytes b)); apply IH; lia.
Qed.

Lemma verifyAction_returns (L : Lib) (w : World) (ctx : Context) :
  Consumes L -> exists run, verifyAction L w ctx = Some run.
Proof.
  intros consumes. unfold verifyAction.
  destruct (NumberOfArguments L ctx 1); [eexists; reflexivity|].
  assert (H : exists r, loadCertificate L w ctx = Some r).
  { unfold loadCertificate.
    destruct (trimURL L (Args_Get ctx 0)) as [err|[addr [|]]]; [eexists; reflexivity| |].
    - destruct (getPeerCertificates w addr (serverName ctx) (roots ctx) false)
        as [err|[|cert rest]]; eexists; reflexivity.
    - destruct (ioutil_ReadFile w (Args_Get ctx 0)) as [err|data]; [eexists; reflexivity|].
      unfold decomposePEM.
      destruct (decodeLoop_returns L (Args_Get ctx 0) consumes (List.length data)
                                   data None [] (le_n _)) as [[err|[[cert|] ipems]] ->];
        try (eexists; reflexivity).
      destruct ipems as [|y ipems]; [eexists; reflexivity|].
      unfold AppendCertsFromPEM.
      destruct (AppendCertsFromPEM_loop_returns L consumes (List.length (y :: ipems))
                                                NewCertPool (y :: ipems) false (le_n _))
        as [[pool [|]] ->]; eexists; reflexivity. }
  destruct H as [[stop|[cert pool]] ->]; [eexists; reflexivity|].
  destruct (verdancy ctx); eexists; reflexivity.
Qed.


(** * Further properties of [verifyAction] *)

(** ** The bands *)

Lemma verdancy_lines_distinct :
  Printf_level red "3" <> Printf_level red "2" /\
  Printf_level red "3" <> Printf_level yellow "1" /\
  Printf_level red "3" <> Printf_level green "0" /\
  Printf_level red "2" <> Printf_level yellow "1" /\
  Printf_level red "2" <> Printf_level green "0" /\
  Printf_level yellow "1" <> Printf_level green "0".
Proof.
  repeat split; vm_compute; discriminate.
Qed.

Ltac bands :=
  split; [|split; [|split; [|split]]]; (split; intros Hrun);
  first [lia | reflexivity | exfalso; congruence].

(** X1. The bands as ranges of [percentUsed]: 3 from 100 on, 2 from 91
    to 99, 1 from 67 to 89, 0 below 1 and from 2 to 65, and the error at
    1, 66 and 90 only. *)
Theorem verdancy_bands_partition (p : Z) :
  (verdancyBands p = (Printf_level red "3", Return None) <-> 100 <= p) /\
  (verdancyBands p = (Printf_level red "2", Return None) <-> 90 < p < 100) /\
  (verdancyBands p = (Printf_level yellow "1", Return None) <-> 66 < p < 90) /\
  (verdancyBands p = (Printf_level green "0", Return None) <-> p < 1 \/ 1 < p < 66) /\
  (verdancyBands p = (EmptyString, Return (Some VerdancyFailure))
   <-> p = 1 \/ p = 66 \/ p = 90).
Proof.
  destruct verdancy_lines_distinct as (D32 & D31 & D30 & D21 & D20 & D10).
  assert (E3 : Printf_level red "3" <> EmptyString) by (vm_compute; discriminate).
  assert (E2 : Printf_level red "2" <> EmptyString) by (vm_compute; discriminate).
  assert (E1 : Printf_level yellow "1" <> EmptyString) by (vm_compute; discriminate).
  assert (E0 : Printf_level green "0" <> EmptyString) by (vm_compute; discriminate).
  unfold verdancyBands.
  destruct (Z.geb_spec p 100); [bands|].
  destruct (Z.gtb_spec p 90); [bands|].
  destruct (Z.gtb_spec p 66); destruct (Z.ltb_spec p 90); cbn [andb]; try bands;
    destruct (Z.ltb_spec p 66); destruct (Z.gtb_spec p 1); cbn [andb]; try bands;
    destruct (Z.ltb_spec p 1); bands.
Qed.

Lemma verdancyBands_level_range (p : Z) (l : VerdancyLevel) :
  level_of_output (fst (verdancyBands p)) = Some l ->
  match l with
  | Expired => 100 <= p
  | Stale => 90 < p < 100
  | Aging => 66 < p < 90
  | Fresh => p < 1 \/ 1 < p < 66
  end.
Proof.
  unfold verdancyBands.
  destruct (Z.geb_spec p 100);
    [intros Hl; vm_compute in Hl; injection Hl as <-; lia|].
  destruct (Z.gtb_spec p 90);
    [intros Hl; vm_compute in Hl; injection Hl as <-; lia|].
  destruct (Z.gtb_spec p 66); destruct (Z.ltb_spec p 90); cbn [andb];
    try (intros Hl; vm_compute in Hl; injection Hl as <-; lia);
    destruct (Z.ltb_spec p 66); destruct (Z.gtb_spec p 1); cbn [andb];
    try (intros Hl; vm_compute in Hl; injection Hl as <-; lia);
    destruct (Z.ltb_spec p 1); intros Hl; vm_compute in Hl;
    (discriminate Hl || (injection Hl as <-; lia)).
Qed.

(** X2. The level never goes down as [percentUsed] goes up: of two
    reports that both write a level, the one with the larger
    [percentUsed] writes a digit that is at least as large. *)
Theorem verdancy_level_monotone
        (L : Lib) (now1 now2 : Time) (cert1 cert2 : Certificate)
        (l1 l2 : VerdancyLevel) :
  percentUsed L now1 cert1 <= percentUsed L now2 cert2 ->
  level_of_output (fst (verdancyReport L now1 cert1)) = Some l1 ->
  level_of_output (fst (verdancyReport L now2 cert2)) = Some l2 ->
  level_digit l1 <= level_digit l2.
Proof.
  unfold verdancyReport. intros Hle H1 H2.
  apply verdancyBands_level_range in H1. apply verdancyBands_level_range in H2.
  destruct l1, l2; cbn [level_digit]; lia.
Qed.

Lemma verdancy_level_monotone_witness :
  level_digit Fresh <= level_digit Stale.
Proof.
  apply (verdancy_level_monotone Sample.lib (500 * Hour) (950 * Hour)
                                 Sample.leaf Sample.leaf Fresh Stale).
  - vm_compute. discriminate.
  - reflexivity.
  - reflexivity.
Defined.

(** ** The percentage *)

Lemma Time_Sub_shift (T a b : Time) : Time_Sub (T + a) (T + b) = Time_Sub a b.
Proof.
  unfold Time_Sub. replace (T + a - (T + b)) with (a - b) by lia. reflexivity.
Qed.

(** X3. Verdancy looks at durations only: moving notBefore, notAfter and
    the current time by one and the same amount changes neither
    [percentUsed] nor the report. *)
Theorem verdancy_translation_invariant (L : Lib) (T now : Time) (cert : Certificate) :
  percentUsed L (T + now) (shift T cert) = percentUsed L now cert /\
  verdancyReport L (T + now) (shift T cert) = verdancyReport L now cert.
Proof.
  assert (H : rawPercentUsed (T + now) (shift T cert) = rawPercentUsed now cert).
  { unfold rawPercentUsed, time_Until, shift. cbn [NotAfter NotBefore].
    now rewrite !Time_Sub_shift. }
  unfold verdancyReport, percentUsed. now rewrite H.
Qed.

(** X4. At the very instant of notAfter the certificate counts as
    expired: when the length of the window in hours is a number other than
    zero, [percentUsed] is 100 and level 3 is written. *)
Theorem expired_at_notAfter (L : Lib) (cert : Certificate) :
  nonzero_number (Duration_Hours (Time_Sub (NotAfter cert) (NotBefore cert))) = true ->
  percentUsed L (NotAfter cert) cert = 100 /\
  verdancyReport L (NotAfter cert) cert = (Printf_level red "3", Return None).
Proof.
  intros Hwin.
  assert (Hp : percentUsed L (NotAfter cert) cert = 100).
  { unfold percentUsed, rawPercentUsed, time_Until. rewrite Time_Sub_diag.
    destruct (Duration_Hours (Time_Sub (NotAfter cert) (NotBefore cert)))
      as [s | s | | s m e]; try discriminate Hwin; destruct s; reflexivity. }
  split; [exact Hp|]. unfold verdancyReport. now rewrite Hp.
Qed.

Lemma expired_at_notAfter_witness :
  verdancyReport Sample.lib (1000 * Hour) Sample.leaf
  = (Printf_level red "3", Return None).
Proof.
  apply (expired_at_notAfter Sample.lib Sample.leaf). reflexivity.
Defined.

(** ** Output and panics *)

(** X5. Nothing is written unless verdancy succeeds: a run that wrote
    anything was in verdancy mode, returned [nil], and wrote exactly one
    level line; every run that returns an error or panics has written
    nothing. *)
Theorem output_only_on_verdancy_success
        (L : Lib) (w : World) (ctx : Context) (out : string) (res : outcome) :
  verifyAction L w ctx = Some (out, res) ->
  out <> EmptyString ->
  verdancy ctx = true /\ res = Return None /\
  exists l, level_of_output out = Some l.
Proof.
  unfold verifyAction. intros Hrun Hout.
  destruct (NumberOfArguments L ctx 1); [injection Hrun as <- _; contradiction|].
  destruct (loadCertificate L w ctx) as [[stop|[cert pool]]|];
    [injection Hrun as <- _; contradiction | | discriminate Hrun].
  destruct (verdancy ctx).
  - injection Hrun as Hrun. unfold verdancyReport in Hrun.
    destruct (verdancyBands_total (percentUsed L (time_Now w) cert))
      as [(l & Hl & Hres) | Hfail]; rewrite Hrun in *; cbn [fst snd] in *.
    + split; [reflexivity | split; [exact Hres | now exists l]].
    + injection Hfail as -> _. contradiction.
  - injection Hrun as Hrun. unfold verifyCertificate in Hrun.
    destruct (Certificate_Verify L _ _ _); injection Hrun as <- _; contradiction.
Qed.

Lemma output_only_on_verdancy_success_witness :
  level_of_output (Printf_level green "0") = Some Fresh.
Proof.
  destruct (output_only_on_verdancy_success
              Sample.lib (Sample.world "bundle.pem" (500 * Hour))
              (Sample.context "bundle.pem" EmptyString EmptyString true)
              (Printf_level green "0") (Return None)) as (_ & _ & l & Hl).
  - reflexivity.
  - vm_compute. discriminate.
  - rewrite Hl. vm_compute in Hl. exact (eq_sym Hl).
Defined.

(** X6. The command panics in one case only: the source is a URL and the
    peer presents an empty chain without an error, so that
    [peerCertificates[0]] is out of range. *)
Theorem panics_iff_empty_peer_chain (L : Lib) (w : World) (ctx : Context) :
  (exists out, verifyAction L w ctx = Some (out, Panic)) <->
  NumberOfArguments L ctx 1 = None /\
  exists addr, trimURL L (Args_Get ctx 0) = inr (addr, true) /\
               getPeerCertificates w addr (serverName ctx) (roots ctx) false = inr [].
Proof.
  unfold verifyAction, loadCertificate. split.
  - intros [out Hrun].
    destruct (NumberOfArguments L ctx 1); [discriminate Hrun|].
    split; [reflexivity|].
    destruct (trimURL L (Args_Get ctx 0)) as [err|[addr [|]]]; [discriminate Hrun| |].
    + exists addr. split; [reflexivity|].
      destruct (getPeerCertificates w addr (serverName ctx) (roots ctx) false)
        as [err|[|cert rest]]; [discriminate Hrun | reflexivity |].
      exfalso. destruct (verdancy ctx).
      * injection Hrun as Hrun.
        destruct (verdancyBands_total (percentUsed L (time_Now w) cert))
          as [(l & _ & Hres) | Hfail]; unfold verdancyReport in Hrun;
          rewrite Hrun in *; discriminate.
      * unfold verifyCertificate in Hrun.
        destruct (Certificate_Verify L _ _ _); discriminate Hrun.
    + exfalso.
      destruct (ioutil_ReadFile w (Args_Get ctx 0)) as [err|data]; [discriminate Hrun|].
      destruct (decomposePEM L (Args_Get ctx 0) data NewCertPool)
        as [[err|[cert pool]]|]; try discriminate Hrun.
      destruct (verdancy ctx).
      * injection Hrun as Hrun.
        destruct (verdancyBands_total (percentUsed L (time_Now w) cert))
          as [(l & _ & Hres) | Hfail]; unfold verdancyReport in Hrun;
          rewrite Hrun in *; discriminate.
      * unfold verifyCertificate in Hrun.
        destruct (Certificate_Verify L _ _ _); discriminate Hrun.
  - intros (Hargs & addr & Hurl & Hpeer). exists EmptyString.
    now rewrite Hargs, Hurl, Hpeer.
Qed.

(** ** The PEM bundle, further *)

(** X7. When the first certificate block does not parse, the command
    returns the parse error (with its stack) and nothing else matters:
    not the blocks after it, nor bytes further on that do not decode. *)
Theorem leaf_parse_failure_first
        (L : Lib) (crtFile : string) (data rest : bytes) (bs : list Block)
        (c : Block) (cs : list Block) (err : error) (intermediatePool : CertPool) :
  Consumes L ->
  Scan L data bs rest ->
  filter isCertificate bs = c :: cs ->
  x509_ParseCertificate L (Bytes c) = inl err ->
  decomposePEM L crtFile data intermediatePool = Some (inl (WithStack err)).
Proof.
  intros consumes HS Hf Hparse.
  rewrite decomposePEM_decodeAll, (decodeAll_scan L consumes crtFile _ _ _ HS).
  now rewrite Hf, Hparse.
Qed.

Lemma leaf_parse_failure_first_witness :
  decomposePEM Sample.lib "bundle.pem" ["K"; "007"; "C"; "000"; "?"]%byte NewCertPool
  = Some (inl (WithStack (External "x509: malformed certificate"))).
Proof.
  apply (leaf_parse_failure_first
           Sample.lib "bundle.pem" ["K"; "007"; "C"; "000"; "?"]%byte ["?"%byte]
           [Cases.key_block "007"; Cases.cert_block "000"]
           (Cases.cert_block "000") []).
  - exact Sample_Decode_consumes.
  - repeat (eapply Scan_block; [discriminate | reflexivity |]). apply Scan_done.
  - reflexivity.
  - reflexivity.
Defined.

Lemma AppendCertsFromPEM_loop_reencoded (L : Lib) (cs : list Block) :
  Consumes L ->
  Forall (reencodes L) cs ->
  Forall (fun b => isCertificate b = true) cs ->
  forall (fuel : nat) (s : CertPool) (ok : bool),
    (List.length (List.concat (map (pem_EncodeToMemory L) cs)) <= fuel)%nat ->
    AppendCertsFromPEM_loop L fuel s (List.concat (map (pem_EncodeToMemory L) cs)) ok
    = Some (fold_left AddCert (flat_map (pooled L) cs) s,
            ok || match flat_map (pooled L) cs with [] => false | _ :: _ => true end).
Proof.
  intros consumes Hre. induction Hre as [|b cs Hd _ IH]; intros Hc fuel s ok Hfuel.
  - simpl. rewrite orb_false_r. now destruct fuel.
  - inversion Hc as [|? ? Hb Hc']; subst.
    cbn [map List.concat flat_map] in *.
    specialize (Hd (List.concat (map (pem_EncodeToMemory L) cs))).
    pose proof (consumes _ _ _ Hd) as Hlt.
    destruct (pem_EncodeToMemory L b ++ List.concat (map (pem_EncodeToMemory L) cs))
      as [|y data] eqn:E; [simpl in Hlt; lia|].
    destruct fuel as [|fuel]; [simpl in Hfuel; lia|].
    cbn [AppendCertsFromPEM_loop]. rewrite Hd.
    unfold isCertificate in Hb. rewrite Hb. cbn [negb orb]. unfold pooled at 1 3.
    destruct (Nat.eqb (List.length (Headers b)) 0); cbn [negb];
      [|rewrite IH by (assumption || (simpl in Hfuel, Hlt; lia)); reflexivity].
    destruct (x509_ParseCertificate L (Bytes b)) as [err|cert];
      rewrite IH by (assumption || (simpl in Hfuel, Hlt; lia)); [reflexivity|].
    cbn [app fold_left]. now rewrite orb_true_r.
Qed.

(** X8. Of the certificate blocks after the leaf, those that do not
    parse or that carry headers are left out of the intermediate pool
    without an error, as long as one of them is taken; when there are such
    blocks and none is taken, the command fails with the intermediate-list
    error. *)
Theorem intermediates_filtered
        (L : Lib) (crtFile : string) (data : bytes) (bs : list Block)
        (c : Block) (cs : list Block) (leaf : Certificate) :
  Consumes L ->
  Scan L data bs [] ->
  filter isCertificate bs = c :: cs ->
  x509_ParseCertificate L (Bytes c) = inr leaf ->
  Forall (reencodes L) cs ->
  decomposePEM L crtFile data NewCertPool =
  Some (match cs with
        | [] => inr (leaf, NewCertPool)
        | _ :: _ =>
            match flat_map (pooled L) cs with
            | [] => inl (IntermediateListFailure crtFile)
            | x :: xs => inr (leaf, fold_left AddCert (x :: xs) NewCertPool)
            end
        end).
Proof.
  intros consumes HS Hf Hleaf Hre.
  assert (Hc : Forall (fun b => isCertificate b = true) cs).
  { apply Forall_forall. intros b Hb.
    assert (Hin : In b (filter isCertificate bs)) by (rewrite Hf; now right).
    now apply filter_In in Hin. }
  rewrite decomposePEM_decodeAll, (decodeAll_outcome L crtFile _ _ _ consumes HS).
  rewrite Hf, Hleaf.
  destruct (List.concat (map (pem_EncodeToMemory L) cs)) as [|y ipems] eqn:E.
  - destruct cs as [|b cs]; [reflexivity|].
    inversion Hre as [|? ? Hd _]; subst.
    cbn [map List.concat] in E.
    specialize (Hd (List.concat (map (pem_EncodeToMemory L) cs))).
    apply consumes in Hd. rewrite E in Hd. simpl in Hd. lia.
  - unfold AppendCertsFromPEM. rewrite <- E.
    rewrite (AppendCertsFromPEM_loop_reencoded L cs consumes Hre Hc) by lia.
    destruct cs as [|b cs]; [discriminate E|].
    now destruct (flat_map (pooled L) (b :: cs)).
Qed.

Lemma intermediates_filtered_witness :
  decomposePEM Sample.lib "bundle.pem" ["C"; "001"; "C"; "000"; "C"; "002"]%byte
               NewCertPool
  = Some (inr (Sample.leaf, [Sample.ca])) /\
  decomposePEM Sample.lib "bundle.pem" ["C"; "001"; "C"; "000"]%byte NewCertPool
  = Some (inl (IntermediateListFailure "bundle.pem")).
Proof.
  split.
  - rewrite (intermediates_filtered
               Sample.lib "bundle.pem" ["C"; "001"; "C"; "000"; "C"; "002"]%byte
               [Cases.cert_block "001"; Cases.cert_block "000"; Cases.cert_block "002"]
               (Cases.cert_block "001")
               [Cases.cert_block "000"; Cases.cert_block "002"] Sample.leaf).
    + reflexivity.
    + exact Sample_Decode_consumes.
    + repeat (eapply Scan_block; [discriminate | reflexivity |]). apply Scan_done.
    + reflexivity.
    + reflexivity.
    + repeat constructor.
  - rewrite (intermediates_filtered
               Sample.lib "bundle.pem" ["C"; "001"; "C"; "000"]%byte
               [Cases.cert_block "001"; Cases.cert_block "000"]
               (Cases.cert_block "001") [Cases.cert_block "000"] Sample.leaf).
    + reflexivity.
    + exact Sample_Decode_consumes.
    + repeat (eapply Scan_block; [discriminate | reflexivity |]). apply Scan_done.
    + reflexivity.
    + reflexivity.
    + repeat constructor.
Defined.

(** X9. A leaf is only ever returned for a buffer that decodes block
    after block down to its last byte and holds a certificate block, and
    the leaf is the first of these, parsed. *)
Theorem decompose_success_sound
        (L : Lib) (crtFile : string) (data : bytes)
        (intermediatePool pool : CertPool) (leaf : Certificate) :
  Consumes L ->
  decomposePEM L crtFile data intermediatePool = Some (inr (leaf, pool)) ->
  exists (bs : list Block) (c : Block) (cs : list Block),
    Scan L data bs [] /\
    filter isCertificate bs = c :: cs /\
    x509_ParseCertificate L (Bytes c) = inr leaf.
Proof.
  intros consumes H.
  destruct (Scan_maximal L consumes data) as (bs & rest & HS & Hstop).
  rewrite decomposePEM_decodeAll, (decodeAll_scan L consumes crtFile _ _ _ HS) in H.
  destruct (filter isCertificate bs) as [|c cs] eqn:Hf.
  - destruct Hstop as [-> | [Hne Hnone]]; [discriminate H|].
    rewrite (decodeAll_invalid L crtFile rest) in H by assumption. discriminate H.
  - destruct (x509_ParseCertificate L (Bytes c)) as [err|leaf'] eqn:Hparse;
      [discriminate H|].
    destruct Hstop as [-> | [Hne Hnone]].
    + exists bs, c, cs. split; [exact HS | split; [exact Hf|]].
      rewrite decodeAll_nil in H.
      destruct (List.concat (map (pem_EncodeToMemory L) cs)) as [|y ipems];
        [now injection H as -> _|].
      destruct (AppendCertsFromPEM L intermediatePool (y :: ipems)) as [[? []]|];
        try discriminate H. now injection H as -> _.
    + rewrite (decodeAll_invalid L crtFile rest) in H by assumption. discriminate H.
Qed.

Lemma decompose_success_sound_witness :
  exists (bs : list Block) (c : Block) (cs : list Block),
    Scan Sample.lib Sample.bundle bs [] /\
    filter isCertificate bs = c :: cs /\
    x509_ParseCertificate Sample.lib (Bytes c) = inr Sample.leaf.
Proof.
  apply (decompose_success_sound Sample.lib "bundle.pem" Sample.bundle
                                 NewCertPool [Sample.ca] Sample.leaf).
  - exact Sample_Decode_consumes.
  - reflexivity.
Defined.

(** X10. Only the certificate blocks count: two buffers that decode down
    to their last byte and have the same certificate blocks in the same
    order give the same result, whatever other blocks lie between them. *)
Theorem decompose_certificates_only
        (L : Lib) (crtFile : string) (data1 data2 : bytes) (bs1 bs2 : list Block)
        (intermediatePool : CertPool) :
  Consumes L ->
  Scan L data1 bs1 [] ->
  Scan L data2 bs2 [] ->
  filter isCertificate bs1 = filter isCertificate bs2 ->
  decomposePEM L crtFile data1 intermediatePool
  = decomposePEM L crtFile data2 intermediatePool.
Proof.
  intros consumes H1 H2 Hf.
  rewrite !decomposePEM_decodeAll.
  rewrite (decodeAll_scan L consumes crtFile _ _ _ H1).
  rewrite (decodeAll_scan L consumes crtFile _ _ _ H2).
  now rewrite Hf.
Qed.

Lemma decompose_certificates_only_witness :
  decomposePEM Sample.lib "bundle.pem" Sample.bundle NewCertPool
  = decomposePEM Sample.lib "bundle.pem"
                 ["K"; "009"; "C"; "001"; "C"; "002"; "K"; "007"]%byte NewCertPool.
Proof.
  apply (decompose_certificates_only
           Sample.lib "bundle.pem" Sample.bundle
           ["K"; "009"; "C"; "001"; "C"; "002"; "K"; "007"]%byte
           [Cases.cert_block "001"; Cases.key_block "007"; Cases.cert_block "002"]
           [Cases.key_block "009"; Cases.cert_block "001"; Cases.cert_block "002";
            Cases.key_block "007"]).
  - exact Sample_Decode_consumes.
  - repeat (eapply Scan_block; [discriminate | reflexivity |]). apply Scan_done.
  - repeat (eapply Scan_block; [discriminate | reflexivity |]). apply Scan_done.
  - reflexivity.
Defined.

(** ** The intermediate pool *)

Lemma AddCert_NoDup (s : CertPool) (cert : Certificate) :
  NoDup (map Raw s) -> NoDup (map Raw (AddCert s cert)).
Proof.
  intros Hs. unfold AddCert. destruct (CertPool_contains s cert) eqn:E; [exact Hs|].
  rewrite map_app. cbn [map].
  assert (Hnot : ~ In (Raw cert) (map Raw s)).
  { intros Hin. apply CertPool_contains_raw in Hin. congruence. }
  clear E. induction (map Raw s) as [|r rs IH]; cbn [app].
  - constructor; [intros [] | constructor].
  - inversion Hs as [|? ? Hr Hrs]; subst. constructor.
    + rewrite in_app_iff. intros [Hin | [<- | []]]; [contradiction|].
      apply Hnot. now left.
    + apply IH; [exact Hrs|]. intros Hin. apply Hnot. now right.
Qed.

Lemma fold_AddCert_NoDup (xs : list Certificate) :
  forall s : CertPool, NoDup (map Raw s) -> NoDup (map Raw (fold_left AddCert xs s)).
Proof.
  induction xs as [|x xs IH]; intros s Hs; cbn [fold_left]; [exact Hs|].
  apply IH. now apply AddCert_NoDup.
Qed.

Lemma AppendCertsFromPEM_loop_NoDup (L : Lib) (fuel : nat) :
  forall (s pool : CertPool) (pemCerts : bytes) (ok ok' : bool),
    NoDup (map Raw s) ->
    AppendCertsFromPEM_loop L fuel s pemCerts ok = Some (pool, ok') ->
    NoDup (map Raw pool).
Proof.
  induction fuel as [|fuel IH]; intros s pool data ok ok' Hs H.
  - destruct data; [|discriminate H]. simpl in H. now injection H as <- _.
  - destruct data as [|y data]; [simpl in H; now injection H as <- _|].
    cbn [AppendCertsFromPEM_loop] in H.
    destruct (pem_Decode L (y :: data)) as [[b|] data'];
      [|now injection H as <- _].
    destruct (negb (String.eqb (Type_ b) "CERTIFICATE")
              || negb (Nat.eqb (List.length (Headers b)) 0));
      [now apply (IH _ _ _ _ _ Hs H)|].
    destruct (x509_ParseCertificate L (Bytes b)) as [err|cert];
      [now apply (IH _ _ _ _ _ Hs H)|].
    apply (IH _ _ _ _ _ (AddCert_NoDup s cert Hs) H).
Qed.

Lemma pooled_length (L : Lib) (cs : list Block) :
  (List.length (flat_map (pooled L) cs) <= List.length cs)%nat.
Proof.
  induction cs as [|b cs IH]; cbn [flat_map]; [apply le_n|].
  rewrite length_app. unfold pooled at 1.
  destruct (Nat.eqb (List.length (Headers b)) 0); [|simpl; lia].
  destruct (x509_ParseCertificate L (Bytes b)); simpl; lia.
Qed.

Lemma fold_AddCert_length (xs : list Certificate) :
  forall s : CertPool,
    (List.length (fold_left AddCert xs s) <= List.length s + List.length xs)%nat.
Proof.
  induction xs as [|x xs IH]; intros s; cbn [fold_left]; [simpl; lia|].
  specialize (IH (AddCert s x)). unfold AddCert in *.
  destruct (CertPool_contains s x); [simpl; lia|].
  rewrite length_app in IH. simpl in *. lia.
Qed.

(** C5 (amended). A buffer that decodes down to its last byte into
    blocks, N of them certificates (N >= 1) with other blocks anywhere
    between them, and whose first certificate block parses: that block is
    the leaf. Of the N-1 later certificate blocks (each read back from its
    re-encoding) the pool takes the certificates of those that have no
    headers and parse, each certificate once: at most N-1 entries, and
    exactly these N-1 certificates in order when all are taken and are
    distinct. When there are later blocks and none is taken the
    decomposition fails with the intermediate-list error; for N = 1 the
    pool is empty. *)
Theorem decompose_leaf_and_pool
        (L : Lib) (crtFile : string) (data : bytes) (bs : list Block)
        (c : Block) (cs : list Block) (leaf : Certificate) :
  Consumes L ->
  Scan L data bs [] ->
  filter isCertificate bs = c :: cs ->
  x509_ParseCertificate L (Bytes c) = inr leaf ->
  Forall (reencodes L) cs ->
  let taken := flat_map (pooled L) cs in
  (cs = [] ->
   decomposePEM L crtFile data NewCertPool = Some (inr (leaf, NewCertPool))) /\
  (cs <> [] -> taken = [] ->
   decomposePEM L crtFile data NewCertPool
   = Some (inl (IntermediateListFailure crtFile))) /\
  (taken <> [] ->
   exists pool : CertPool,
     decomposePEM L crtFile data NewCertPool = Some (inr (leaf, pool)) /\
     pool = fold_left AddCert taken NewCertPool /\
     (forall r, In r (map Raw pool) <-> In r (map Raw taken)) /\
     NoDup (map Raw pool) /\
     (List.length pool <= List.length taken <= List.length cs)%nat /\
     (NoDup (map Raw taken) -> pool = taken)).
Proof.
  intros consumes HS Hf Hleaf Hre taken.
  assert (Hc : Forall (fun b => isCertificate b = true) cs).
  { apply Forall_forall. intros b Hb.
    assert (Hin : In b (filter isCertificate bs)) by (rewrite Hf; now right).
    now apply filter_In in Hin. }
  assert (Hrun : decomposePEM L crtFile data NewCertPool =
                 match List.concat (map (pem_EncodeToMemory L) cs) with
                 | [] => Some (inr (leaf, NewCertPool))
                 | _ :: _ =>
                     match taken with
                     | [] => Some (inl (IntermediateListFailure crtFile))
                     | _ :: _ => Some (inr (leaf, fold_left AddCert taken NewCertPool))
                     end
                 end).
  { rewrite decomposePEM_decodeAll, (decodeAll_outcome L crtFile _ _ _ consumes HS).
    rewrite Hf, Hleaf.
    destruct (List.concat (map (pem_EncodeToMemory L) cs)) as [|y ipems] eqn:E;
      [reflexivity|].
    unfold AppendCertsFromPEM. rewrite <- E.
    rewrite (AppendCertsFromPEM_loop_reencoded L cs consumes Hre Hc) by lia.
    fold taken. now destruct taken. }
  assert (Hne : cs <> [] -> List.concat (map (pem_EncodeToMemory L) cs) <> []).
  { intros Hcs E. destruct cs as [|b cs]; [contradiction|].
    inversion Hre as [|? ? Hd _]; subst. cbn [map List.concat] in E.
    specialize (Hd (List.concat (map (pem_EncodeToMemory L) cs))).
    apply consumes in Hd. rewrite E in Hd. simpl in Hd. lia. }
  split; [|split].
  - intros ->. now rewrite Hrun.
  - intros Hcs Ht. rewrite Hrun, Ht.
    destruct (List.concat (map (pem_EncodeToMemory L) cs)); [now apply Hne in Hcs|].
    reflexivity.
  - intros Ht. exists (fold_left AddCert taken NewCertPool).
    assert (Hcs : cs <> []) by (intros ->; now apply Ht).
    split; [|split; [reflexivity|split; [|split; [|split]]]].
    + rewrite Hrun.
      destruct (List.concat (map (pem_EncodeToMemory L) cs)); [now apply Hne in Hcs|].
      destruct taken; [contradiction | reflexivity].
    + intros r. rewrite fold_AddCert_raw. simpl. tauto.
    + apply fold_AddCert_NoDup, NoDup_nil.
    + split; [apply (fold_AddCert_length taken NewCertPool) | apply pooled_length].
    + intros Hnd. now rewrite fold_AddCert_distinct.
Qed.

Lemma decompose_leaf_and_pool_witness :
  decomposePEM Sample.lib "bundle.pem"
               ["C"; "001"; "K"; "007"; "C"; "000"; "C"; "002"; "C"; "002"]%byte
               NewCertPool
  = Some (inr (Sample.leaf, [Sample.ca])).
Proof.
  destruct (decompose_leaf_and_pool
              Sample.lib "bundle.pem"
              ["C"; "001"; "K"; "007"; "C"; "000"; "C"; "002"; "C"; "002"]%byte
              [Cases.cert_block "001"; Cases.key_block "007"; Cases.cert_block "000";
               Cases.cert_block "002"; Cases.cert_block "002"]
              (Cases.cert_block "001")
              [Cases.cert_block "000"; Cases.cert_block "002"; Cases.cert_block "002"]
              Sample.leaf) as (_ & _ & Htaken).
  - exact Sample_Decode_consumes.
  - repeat (eapply Scan_block; [discriminate | reflexivity |]). apply Scan_done.
  - reflexivity.
  - reflexivity.
  - repeat constructor.
  - destruct Htaken as (pool & Hrun & Hpool & _); [discriminate|].
    rewrite Hrun, Hpool. reflexivity.
Defined.

(** C5 as stated fails: the buffer below has four certificate blocks, the
    first of them the leaf; of the three later ones the first does not
    parse and the other two hold the same certificate, and the pool has
    one entry, not three. *)
Lemma decompose_exactly_counterexample :
  ~ (exists pool : CertPool,
        decomposePEM Sample.lib "bundle.pem"
                     ["C"; "001"; "K"; "007"; "C"; "000"; "C"; "002"; "C"; "002"]%byte
                     NewCertPool
        = Some (inr (Sample.leaf, pool)) /\
        List.length pool = 3%nat).
Proof.
  intros (pool & Hrun & Hlen). vm_compute in Hrun.
  injection Hrun as <-. discriminate Hlen.
Qed.

(** X11. The intermediate pool never holds a certificate twice: whatever
    the source, the pool that goes with the leaf has no two certificates
    with the same raw encoding. *)
Theorem intermediate_pool_no_duplicates
        (L : Lib) (w : World) (ctx : Context) (cert : Certificate) (pool : CertPool) :
  loadCertificate L w ctx = Some (inr (cert, pool)) ->
  NoDup (map Raw pool).
Proof.
  unfold loadCertificate. intros H.
  destruct (trimURL L (Args_Get ctx 0)) as [err|[addr [|]]]; [discriminate H| |].
  - destruct (getPeerCertificates w addr (serverName ctx) (roots ctx) false)
      as [err|[|c rest]]; try discriminate H.
    injection H as _ <-. apply fold_AddCert_NoDup, AddCert_NoDup, NoDup_nil.
  - destruct (ioutil_ReadFile w (Args_Get ctx 0)) as [err|data]; [discriminate H|].
    unfold decomposePEM in H.
    destruct (decodeLoop L (List.length data) (Args_Get ctx 0) data None [])
      as [[err|[[leaf|] ipems]]|]; try discriminate H.
    destruct ipems as [|y ipems]; [injection H as _ <-; apply NoDup_nil|].
    unfold AppendCertsFromPEM in H.
    destruct (AppendCertsFromPEM_loop L (List.length (y :: ipems)) NewCertPool
                                      (y :: ipems) false) as [[p [|]]|] eqn:E;
      try discriminate H.
    injection H as _ <-.
    apply (AppendCertsFromPEM_loop_NoDup L _ NewCertPool _ _ _ _ (NoDup_nil _) E).
Qed.

Lemma intermediate_pool_no_duplicates_witness :
  loadCertificate Sample.lib
                  (Cases.peer_world [Sample.leaf; Sample.ca; Sample.leaf; Sample.ca] 0)
                  (Sample.context "https://example.com" EmptyString EmptyString false)
  = Some (inr (Sample.leaf, [Sample.leaf; Sample.ca])) /\
  NoDup (map Raw [Sample.leaf; Sample.ca]).
Proof.
  split; [reflexivity|].
  apply (intermediate_pool_no_duplicates
           Sample.lib
           (Cases.peer_world [Sample.leaf; Sample.ca; Sample.leaf; Sample.ca] 0)
           (Sample.context "https://example.com" EmptyString EmptyString false)
           Sample.leaf).
  reflexivity.
Defined.

(** ** Termination *)

(** X12. The command comes to an end: with a decoder that consumes what
    it decodes, both PEM loops stop within as many turns as the buffer
    has bytes, and [verifyAction] returns or panics. *)
Theorem verifyAction_terminates (L : Lib) (w : World) (ctx : Context) :
  Consumes L ->
  exists (out : string) (res : outcome), verifyAction L w ctx = Some (out, res).
Proof.
  intros consumes.
  destruct (verifyAction_returns L w ctx consumes) as [[out res] H].
  now exists out, res.
Qed.

Lemma verifyAction_terminates_witness :
  exists (out : string) (res : outcome),
    verifyAction Sample.lib (Cases.file_world ["C"; "001"; "?"]%byte 0)
                 (Sample.context "bundle.pem" EmptyString EmptyString false)
    = Some (out, res).
Proof.
  apply (verifyAction_terminates Sample.lib). exact Sample_Decode_consumes.
Defined.

(** ** Long windows *)

(** X14. Durations saturate, and verdancy with them. When both the time
    left and the validity window are at least the longest duration (about
    292 years), the two are taken to be equal: [percentUsed] is 0 and
    level 0 is written, however much of the window has gone by. *)
Theorem verdancy_saturates (L : Lib) (now : Time) (cert : Certificate) :
  maxDuration <= NotAfter cert - now ->
  maxDuration <= NotAfter cert - NotBefore cert ->
  percentUsed L now cert = 0 /\
  verdancyReport L now cert = (Printf_level green "0", Return None).
Proof.
  intros Hleft Hwin.
  assert (Hsat : forall t u, maxDuration <= t - u -> Time_Sub t u = maxDuration).
  { intros t u H. unfold Time_Sub.
    assert (Hmin : minDuration < maxDuration) by (vm_compute; reflexivity).
    destruct (Z.ltb_spec (t - u) minDuration); [lia|].
    destruct (Z.ltb_spec maxDuration (t - u)); [reflexivity | lia]. }
  assert (Hp : percentUsed L now cert = 0).
  { unfold percentUsed, rawPercentUsed, time_Until.
    rewrite (Hsat _ _ Hleft), (Hsat _ _ Hwin). now vm_compute. }
  split; [exact Hp|]. unfold verdancyReport. now rewrite Hp.
Qed.

Lemma verdancy_saturates_witness :
  verdancyReport Sample.lib (100 * 365 * 24 * Hour)
                 {| Raw := []; NotBefore := 0; NotAfter := 500 * 365 * 24 * Hour |}
  = (Printf_level green "0", Return None).
Proof.
  apply (verdancy_saturates Sample.lib); vm_compute; discriminate.
Defined.
